(** * lec4/structured.cpp: summing and filtering the even numbers of a vector

    A shallow embedding of the three loops of [src/lec4/structured.cpp]
    ([sum_evens_structured], [sum_evens_non_structured] and the filter loop
    of [main]) and the properties the specification states about them.

    Data model (LP64, the platform the lecture code is built for):
    - [int] is a 32-bit two's-complement integer, kept as a [Z] in
      [INT_MIN .. INT_MAX]; arithmetic on it wraps around ([wrap_int]).
      ISO C++ leaves signed overflow undefined; the wrap-around written
      here is what the target hardware (and [-fwrapv]) does.
    - [size_t] is a 64-bit unsigned integer; an [int] compared with a
      [size_t], or used as a vector subscript, is first converted to
      [size_t] ([to_size_t]).
    - [vector<int>] is a [list Z]; [operator[]] does no bounds check in
      C++, so the embedding makes every access return an [outcome] whose
      [OutOfBounds] case marks an access outside the vector.
    - [cout] is the string of characters written so far. *)

From Stdlib Require Import ZArith List String Ascii Lia DecimalString.
From Stdlib Require Import Permutation DecimalZ DecimalPos.
From stdpp Require Import base list.
Import ListNotations.

Local Open Scope Z_scope.

(** ** Machine integers *)

Definition INT_MIN : Z := -2147483648.
Definition INT_MAX : Z := 2147483647.
Definition SIZE_MAX : Z := 18446744073709551615.

(** The values an [int] can hold. *)
Definition is_int (z : Z) : Prop := INT_MIN <= z <= INT_MAX.

(** Reduction of a mathematical integer to the [int] that has the same
    residue modulo 2^32. *)
Definition wrap_int (z : Z) : Z :=
  (z + 2147483648) mod 4294967296 - 2147483648.

(** [a + b] on [int]. *)
Definition int_add (a b : Z) : Z := wrap_int (a + b).

(** [a % b] on [int]: the quotient [a / b] is truncated towards zero and
    [(a / b) * b + a % b == a]. *)
Definition int_rem (a b : Z) : Z := a - Z.quot a b * b.

(** Conversion of an [int] to [size_t]: the value modulo 2^64. *)
Definition to_size_t (z : Z) : Z := z mod 18446744073709551616.

(** ** Results of running a loop *)

Inductive outcome (A : Type) : Type :=
  | Done (a : A)     (* the code ran to its end and produced [a] *)
  | OutOfBounds      (* a subscript outside the vector was read *)
  | OutOfFuel.       (* the step budget of the embedding ran out *)

Arguments Done {A} a.
Arguments OutOfBounds {A}.
Arguments OutOfFuel {A}.

Definition outcome_bind {A B : Type} (f : A -> outcome B) (m : outcome A)
  : outcome B :=
  match m with
  | Done a => f a
  | OutOfBounds => OutOfBounds
  | OutOfFuel => OutOfFuel
  end.

#[export] Instance outcome_mbind : MBind outcome := @outcome_bind.
#[export] Instance outcome_mret : MRet outcome := @Done.

Definition outcome_map {A B : Type} (f : A -> B) (m : outcome A) : outcome B :=
  match m with
  | Done a => Done (f a)
  | OutOfBounds => OutOfBounds
  | OutOfFuel => OutOfFuel
  end.

(** ** [vector<int>] *)

(** [data.size()], a [size_t]. *)
Definition size (data : list Z) : Z := to_size_t (Z.of_nat (length data)).

(** [data[n]] for a [size_t] subscript [n]. *)
Definition at_index (data : list Z) (n : Z) : outcome Z :=
  match data !! Z.to_nat n with
  | Some x => Done x
  | None => OutOfBounds
  end.

(** [data[i]] for an [int] subscript [i], converted to [size_t] first. *)
Definition subscript (data : list Z) (i : Z) : outcome Z :=
  at_index data (to_size_t i).

(** ** [cout] *)

(** [cout << n] for an [int] [n]: its decimal digits, with a leading minus
    sign when negative. *)
Definition show_int (n : Z) : string := NilZero.string_of_int (Z.to_int n).

(** [endl]: a newline (the flush has no content of its own here). *)
Definition endl : string := String (ascii_of_nat 10) EmptyString.

(** ** [is_even] (lines 5-7) *)

Definition is_even (x : Z) : bool := int_rem x 2 =? 0.

(** ** [sum_evens_structured] (lines 9-18) *)

(** The [for] loop, entered at its test with the current [i] and [sum].
    One unit of [fuel] is spent each time the test is evaluated. *)
Fixpoint sum_evens_structured_loop
    (fuel : nat) (data : list Z) (i sum : Z) : outcome Z :=
  match fuel with
  | O => OutOfFuel
  | S fuel' =>
      if to_size_t i <? size data then
        x ← subscript data i;
        if is_even x then
          y ← subscript data i;
          sum_evens_structured_loop fuel' data (int_add i 1) (int_add sum y)
        else
          sum_evens_structured_loop fuel' data (int_add i 1) sum
      else Done sum
  end.

(** The value of [sum] when the loop is left. *)
Definition sum_evens_structured_sum (data : list Z) : outcome Z :=
  sum_evens_structured_loop (S (length data)) data 0 0.

(** The whole function: the loop, then [cout << "Total: " << sum << endl]. *)
Definition sum_evens_structured (data : list Z) (cout : string)
  : outcome string :=
  sum ← sum_evens_structured_sum data;
  Done (cout ++ "Total: " ++ show_int sum ++ endl)%string.

(** ** [sum_evens_non_structured] (lines 20-37) *)

(** Program points: the three labels of the source and the two unlabelled
    statements between [loop_start] and [next_iteration]. *)
Inductive label : Type :=
  | loop_start       (* if (i >= data.size()) goto loop_end;      *)
  | odd_test         (* if (data[i] % 2 != 0) goto next_iteration; *)
  | accumulate       (* sum += data[i];                            *)
  | next_iteration   (* i++; goto loop_start;                      *)
  | loop_end.        (* cout << "Total: " << sum << endl;          *)

Record frame : Type := Frame { pc : label; var_i : Z; var_sum : Z }.

(** One statement of the label-and-jump code. At [loop_end] the loop has
    been left and nothing of it remains to be done; the output statement
    found there is the last line of [sum_evens_non_structured] below. *)
Definition step (data : list Z) (s : frame) : outcome frame :=
  match pc s with
  | loop_start =>
      if size data <=? to_size_t (var_i s)
      then Done (Frame loop_end (var_i s) (var_sum s))
      else Done (Frame odd_test (var_i s) (var_sum s))
  | odd_test =>
      x ← subscript data (var_i s);
      if negb (int_rem x 2 =? 0)
      then Done (Frame next_iteration (var_i s) (var_sum s))
      else Done (Frame accumulate (var_i s) (var_sum s))
  | accumulate =>
      y ← subscript data (var_i s);
      Done (Frame next_iteration (var_i s) (int_add (var_sum s) y))
  | next_iteration =>
      Done (Frame loop_start (int_add (var_i s) 1) (var_sum s))
  | loop_end => Done s
  end.

(** Statements are executed until control is at [loop_end]; the result is
    the value of [sum] there. One unit of [fuel] is spent per statement. *)
Fixpoint run (fuel : nat) (data : list Z) (s : frame) : outcome Z :=
  match pc s with
  | loop_end => Done (var_sum s)
  | _ =>
      match fuel with
      | O => OutOfFuel
      | S fuel' => s' ← step data s; run fuel' data s'
      end
  end.

(** [n] statements of the label-and-jump code, one after the other. *)
Fixpoint steps (n : nat) (data : list Z) (s : frame) : outcome frame :=
  match n with
  | O => Done s
  | S n' => s' ← step data s; steps n' data s'
  end.

(** The frames in which the label-and-jump code is about to read [data[i]]
    are entered only through the test at [loop_start]. *)
Definition guarded (data : list Z) (s : frame) : Prop :=
  match pc s with
  | odd_test | accumulate => to_size_t (var_i s) < size data
  | _ => True
  end.

(** [int sum = 0; int i = 0;] and control at [loop_start]. *)
Definition entry : frame := Frame loop_start 0 0.

Definition sum_evens_non_structured_sum (data : list Z) : outcome Z :=
  run (4 * length data + 1) data entry.

Definition sum_evens_non_structured (data : list Z) (cout : string)
  : outcome string :=
  sum ← sum_evens_non_structured_sum data;
  Done (cout ++ "Total: " ++ show_int sum ++ endl)%string.

(** ** [main] (lines 42-59) *)

(** The first loop of [main], for any vector [numbers]; [evenNumbers] is
    the vector built so far and [push_back] appends at its end. *)
Fixpoint filter_loop
    (fuel : nat) (numbers : list Z) (i : Z) (evenNumbers : list Z)
  : outcome (list Z) :=
  match fuel with
  | O => OutOfFuel
  | S fuel' =>
      if to_size_t i <? size numbers then
        x ← subscript numbers i;
        if int_rem x 2 =? 0 then
          y ← subscript numbers i;
          filter_loop fuel' numbers (int_add i 1) (evenNumbers ++ [y])
        else
          filter_loop fuel' numbers (int_add i 1) evenNumbers
      else Done evenNumbers
  end.

(** [vector<int> evenNumbers;] followed by the loop. *)
Definition filter_evens (numbers : list Z) : outcome (list Z) :=
  filter_loop (S (length numbers)) numbers 0 [].

(** The second loop of [main]: [cout << n << " "] for each element. *)
Definition print_all (evenNumbers : list Z) (cout : string) : string :=
  fold_left (fun out n => (out ++ show_int n ++ " ")%string) evenNumbers cout.

Definition numbers : list Z := [1; 2; 3; 4; 5; 6; 7; 8; 9; 10].

(** [main]: its return value and what it has written. *)
Definition main (cout : string) : outcome (Z * string) :=
  evenNumbers ← filter_evens numbers;
  Done (0, print_all evenNumbers (cout ++ "Even numbers: ")%string).

(** ** Auxiliary notions *)

(** The number of the last pass the loop test can still let through. *)
Definition last_pass (data : list Z) : Z := Z.min (size data) 4294967295.

(** ** Reference notions of the specification *)

(** The sum of a sequence of integers, as a mathematical integer. *)
Definition Zsum (l : list Z) : Z := fold_right Z.add 0 l.

(** The elements of [l] that are even, in the order of [l]. *)
Definition evens (l : list Z) : list Z := List.filter is_even l.

(** * Properties *)

(** ** Machine arithmetic *)

Ltac int_arith :=
  unfold is_int, int_add, wrap_int, to_size_t, INT_MIN, INT_MAX, SIZE_MAX in *;
  Z.div_mod_to_equations; lia.

Lemma wrap_int_is_int z : is_int (wrap_int z).
Proof. int_arith. Qed.

Lemma wrap_int_small z : is_int z -> wrap_int z = z.
Proof. int_arith. Qed.

Lemma wrap_int_idemp_l a b : wrap_int (wrap_int a + b) = wrap_int (a + b).
Proof.
  unfold wrap_int. f_equal.
  replace ((a + 2147483648) mod 4294967296 - 2147483648 + b + 2147483648)
    with ((a + 2147483648) mod 4294967296 + b) by lia.
  rewrite Zplus_mod_idemp_l. f_equal. lia.
Qed.

Lemma int_add_wrap k : int_add (wrap_int k) 1 = wrap_int (k + 1).
Proof. apply wrap_int_idemp_l. Qed.

Lemma int_rem_2 x : int_rem x 2 = Z.rem x 2.
Proof. unfold int_rem. rewrite Z.rem_eq by lia. lia. Qed.

Lemma to_size_t_range z : 0 <= to_size_t z <= SIZE_MAX.
Proof. int_arith. Qed.

Lemma to_size_t_small z : 0 <= z <= SIZE_MAX -> to_size_t z = z.
Proof. int_arith. Qed.

Lemma size_le_length data : 0 <= size data <= Z.of_nat (length data).
Proof. unfold size. int_arith. Qed.

Lemma size_small data :
  Z.of_nat (length data) <= SIZE_MAX -> size data = Z.of_nat (length data).
Proof. intros H. unfold size. apply to_size_t_small. lia. Qed.

Lemma Zsum_app l1 l2 : Zsum (l1 ++ l2) = Zsum l1 + Zsum l2.
Proof.
  unfold Zsum. induction l1 as [|x l1 IH]; cbn; [reflexivity | rewrite IH; lia].
Qed.

(** ** Subscripts *)

(** A subscript that passed the loop test reads an element of the vector. *)
Lemma subscript_in_bounds data i :
  to_size_t i < size data ->
  exists x, data !! Z.to_nat (to_size_t i) = Some x /\ subscript data i = Done x.
Proof.
  intros Hlt.
  assert (is_Some (data !! Z.to_nat (to_size_t i))) as [x Hx].
  { apply lookup_lt_is_Some.
    pose proof (size_le_length data). pose proof (to_size_t_range i). lia. }
  exists x. split; [assumption |].
  unfold subscript, at_index. now rewrite Hx.
Qed.

(** ** One pass of each loop *)

Lemma structured_loop_exit fuel data i sum :
  size data <= to_size_t i ->
  sum_evens_structured_loop (S fuel) data i sum = Done sum.
Proof.
  intros Hge. cbn [sum_evens_structured_loop].
  destruct (Z.ltb_spec (to_size_t i) (size data)); [lia | reflexivity].
Qed.

Lemma structured_loop_pass fuel data i sum x :
  to_size_t i < size data ->
  data !! Z.to_nat (to_size_t i) = Some x ->
  sum_evens_structured_loop (S fuel) data i sum =
  sum_evens_structured_loop fuel data (int_add i 1)
    (if is_even x then int_add sum x else sum).
Proof.
  intros Hlt Hx. cbn [sum_evens_structured_loop].
  destruct (Z.ltb_spec (to_size_t i) (size data)); [| lia].
  unfold subscript, at_index. rewrite Hx. cbn.
  destruct (is_even x); reflexivity.
Qed.

Lemma filter_loop_exit fuel data i acc :
  size data <= to_size_t i ->
  filter_loop (S fuel) data i acc = Done acc.
Proof.
  intros Hge. cbn [filter_loop].
  destruct (Z.ltb_spec (to_size_t i) (size data)); [lia | reflexivity].
Qed.

Lemma filter_loop_pass fuel data i acc x :
  to_size_t i < size data ->
  data !! Z.to_nat (to_size_t i) = Some x ->
  filter_loop (S fuel) data i acc =
  filter_loop fuel data (int_add i 1)
    (if is_even x then acc ++ [x] else acc).
Proof.
  intros Hlt Hx. cbn [filter_loop].
  destruct (Z.ltb_spec (to_size_t i) (size data)); [| lia].
  unfold subscript, at_index. rewrite Hx. cbn. unfold is_even.
  destruct (int_rem x 2 =? 0); reflexivity.
Qed.

Lemma run_loop_end fuel data i sum :
  run fuel data (Frame loop_end i sum) = Done sum.
Proof. destruct fuel; reflexivity. Qed.

Lemma run_S fuel data s :
  pc s <> loop_end -> run (S fuel) data s = step data s ≫= run fuel data.
Proof.
  destruct s as [[] i sum]; intros Hpc; try reflexivity. now destruct Hpc.
Qed.

Lemma step_loop_start data i sum :
  step data (Frame loop_start i sum) =
  Done (Frame (if size data <=? to_size_t i then loop_end else odd_test) i sum).
Proof. unfold step. cbn. destruct (size data <=? to_size_t i); reflexivity. Qed.

Lemma step_odd_test data i sum x :
  data !! Z.to_nat (to_size_t i) = Some x ->
  step data (Frame odd_test i sum) =
  Done (Frame (if is_even x then accumulate else next_iteration) i sum).
Proof.
  intros Hx. unfold step, subscript, at_index, is_even. cbn. rewrite Hx. cbn.
  destruct (int_rem x 2 =? 0); reflexivity.
Qed.

Lemma step_accumulate data i sum x :
  data !! Z.to_nat (to_size_t i) = Some x ->
  step data (Frame accumulate i sum) =
  Done (Frame next_iteration i (int_add sum x)).
Proof.
  intros Hx. unfold step, subscript, at_index. cbn. rewrite Hx. reflexivity.
Qed.

Lemma step_next_iteration data i sum :
  step data (Frame next_iteration i sum) =
  Done (Frame loop_start (int_add i 1) sum).
Proof. reflexivity. Qed.

Lemma run_steps n data :
  forall s s' fuel,
    steps n data s = Done s' -> run (n + fuel) data s = run fuel data s'.
Proof.
  induction n as [|n IH]; intros s s' fuel Hs; cbn [steps] in Hs.
  - now injection Hs as ->.
  - destruct s as [l i sum].
    assert (l = loop_end \/ l <> loop_end) as [-> | Hl]
      by (destruct l; auto; right; discriminate).
    + cbn in Hs. rewrite <- (IH _ _ _ Hs). now rewrite !run_loop_end.
    + cbn [Nat.add]. rewrite run_S by assumption.
      destruct (step data _) as [s1| |]; try discriminate.
      cbn in Hs |- *. now apply IH.
Qed.

Ltac step_one :=
  cbn [steps];
  first [ rewrite step_loop_start
        | erewrite step_odd_test by eassumption
        | erewrite step_accumulate by eassumption
        | rewrite step_next_iteration ];
  cbn [mbind outcome_mbind outcome_bind].

(** An odd element: [loop_start], [odd_test], [next_iteration], and back. *)
Lemma pass_odd data i sum x :
  to_size_t i < size data ->
  data !! Z.to_nat (to_size_t i) = Some x ->
  is_even x = false ->
  steps 3 data (Frame loop_start i sum) =
  Done (Frame loop_start (int_add i 1) sum).
Proof.
  intros Hlt Hx Hodd. step_one.
  destruct (Z.leb_spec (size data) (to_size_t i)); [lia |].
  step_one. rewrite Hodd. step_one. reflexivity.
Qed.

(** An even element: [loop_start], [odd_test], [accumulate],
    [next_iteration], and back. *)
Lemma pass_even data i sum x :
  to_size_t i < size data ->
  data !! Z.to_nat (to_size_t i) = Some x ->
  is_even x = true ->
  steps 4 data (Frame loop_start i sum) =
  Done (Frame loop_start (int_add i 1) (int_add sum x)).
Proof.
  intros Hlt Hx Heven. step_one.
  destruct (Z.leb_spec (size data) (to_size_t i)); [lia |].
  step_one. rewrite Heven. step_one. step_one. reflexivity.
Qed.

Lemma run_exit fuel data i sum :
  size data <= to_size_t i ->
  run (S fuel) data (Frame loop_start i sum) = Done sum.
Proof.
  intros Hge. rewrite run_S by discriminate. rewrite step_loop_start.
  destruct (Z.leb_spec (size data) (to_size_t i)); [| lia].
  apply run_loop_end.
Qed.

Lemma run_pass_odd fuel data i sum x :
  to_size_t i < size data ->
  data !! Z.to_nat (to_size_t i) = Some x ->
  is_even x = false ->
  run (3 + fuel) data (Frame loop_start i sum) =
  run fuel data (Frame loop_start (int_add i 1) sum).
Proof. intros. eapply run_steps, pass_odd; eassumption. Qed.

Lemma run_pass_even fuel data i sum x :
  to_size_t i < size data ->
  data !! Z.to_nat (to_size_t i) = Some x ->
  is_even x = true ->
  run (4 + fuel) data (Frame loop_start i sum) =
  run fuel data (Frame loop_start (int_add i 1) (int_add sum x)).
Proof. intros. eapply run_steps, pass_even; eassumption. Qed.

(** ** Subscripts stay inside the vector *)

Lemma structured_loop_in_bounds fuel data :
  forall i sum, sum_evens_structured_loop fuel data i sum <> OutOfBounds.
Proof.
  induction fuel as [|fuel IH]; intros i sum; [discriminate |].
  destruct (Z.lt_ge_cases (to_size_t i) (size data)) as [Hlt | Hge].
  - destruct (subscript_in_bounds data i Hlt) as (x & Hx & _).
    rewrite (structured_loop_pass _ _ _ _ x) by assumption. apply IH.
  - rewrite structured_loop_exit by assumption. discriminate.
Qed.

Lemma filter_loop_in_bounds fuel data :
  forall i acc, filter_loop fuel data i acc <> OutOfBounds.
Proof.
  induction fuel as [|fuel IH]; intros i acc; [discriminate |].
  destruct (Z.lt_ge_cases (to_size_t i) (size data)) as [Hlt | Hge].
  - destruct (subscript_in_bounds data i Hlt) as (x & Hx & _).
    rewrite (filter_loop_pass _ _ _ _ x) by assumption. apply IH.
  - rewrite filter_loop_exit by assumption. discriminate.
Qed.

Lemma step_guarded data s :
  guarded data s -> exists s', step data s = Done s' /\ guarded data s'.
Proof.
  destruct s as [l i sum]. unfold guarded, step. cbn [pc var_i var_sum].
  destruct l; intros Hg.
  - destruct (Z.leb_spec (size data) (to_size_t i));
      eexists; (split; [reflexivity |]); cbn; [exact I | assumption].
  - destruct (subscript_in_bounds data i Hg) as (x & _ & ->). cbn.
    destruct (negb _); eexists; (split; [reflexivity |]); cbn;
      [exact I | assumption].
  - destruct (subscript_in_bounds data i Hg) as (x & _ & ->). cbn.
    eexists; split; [reflexivity | exact I].
  - eexists; split; [reflexivity | exact I].
  - eexists; split; [reflexivity | exact I].
Qed.

Lemma run_in_bounds fuel data :
  forall s, guarded data s -> run fuel data s <> OutOfBounds.
Proof.
  induction fuel as [|fuel IH]; intros s Hg.
  - destruct s as [[] i sum]; discriminate.
  - destruct (step_guarded data s Hg) as (s' & Hs' & Hg').
    destruct s as [l i sum].
    destruct l; cbn [run pc]; try discriminate;
      rewrite Hs'; cbn; apply IH; assumption.
Qed.

(** ** The loops leave within [size] passes *)

Lemma last_pass_exits data :
  size data <= to_size_t (wrap_int (last_pass data)).
Proof.
  pose proof (size_le_length data) as [H0 _].
  assert (size data <= SIZE_MAX) by apply to_size_t_range.
  unfold last_pass. destruct (Z.min_spec (size data) 4294967295) as [[? ->]|[? ->]];
    int_arith.
Qed.

Lemma structured_loop_total fuel data :
  forall k sum,
    0 <= k <= last_pass data ->
    last_pass data - k < Z.of_nat fuel ->
    exists r, sum_evens_structured_loop fuel data (wrap_int k) sum = Done r.
Proof.
  induction fuel as [|fuel IH]; intros k sum Hk Hfuel; [lia |].
  destruct (Z.lt_ge_cases (to_size_t (wrap_int k)) (size data)) as [Hlt | Hge].
  - destruct (subscript_in_bounds data _ Hlt) as (x & Hx & _).
    rewrite (structured_loop_pass _ _ _ _ x) by assumption.
    rewrite int_add_wrap.
    pose proof (last_pass_exits data).
    assert (k <> last_pass data) by (intros ->; lia).
    apply IH; lia.
  - rewrite structured_loop_exit by assumption. eauto.
Qed.

Lemma sum_evens_structured_sum_total data :
  exists r, sum_evens_structured_sum data = Done r.
Proof.
  unfold sum_evens_structured_sum.
  pose proof (size_le_length data).
  change 0 with (wrap_int 0) at 1.
  apply structured_loop_total; unfold last_pass; lia.
Qed.

(** ** The label-and-jump code follows the structured loop *)

Lemma run_simulates n data :
  forall i sum r,
    sum_evens_structured_loop n data i sum = Done r ->
    forall m, (4 * n <= m + 3)%nat ->
    run m data (Frame loop_start i sum) = Done r.
Proof.
  induction n as [|n IH]; intros i sum r Hr m Hm; [discriminate |].
  destruct (Z.lt_ge_cases (to_size_t i) (size data)) as [Hlt | Hge].
  - destruct (subscript_in_bounds data i Hlt) as (x & Hx & _).
    rewrite (structured_loop_pass _ _ _ _ x) in Hr by assumption.
    destruct n as [|n]; [discriminate |].
    destruct m as [|[|[|[|m]]]]; try lia.
    destruct (is_even x) eqn:Hpar.
    + rewrite (run_pass_even m _ _ _ x) by assumption.
      apply IH; [assumption | lia].
    + rewrite (run_pass_odd (S m) _ _ _ x) by assumption.
      apply IH; [assumption | lia].
  - rewrite structured_loop_exit in Hr by assumption.
    destruct m as [|m]; [lia |].
    rewrite run_exit by assumption. assumption.
Qed.

Lemma sum_evens_sums_agree data :
  sum_evens_non_structured_sum data = sum_evens_structured_sum data.
Proof.
  destruct (sum_evens_structured_sum_total data) as [r Hr].
  rewrite Hr. unfold sum_evens_non_structured_sum, entry.
  apply (run_simulates _ _ _ _ _ Hr). lia.
Qed.

(** ** What the loops compute when [size] fits the [int] counter *)

Lemma evens_snoc l x :
  evens (l ++ [x]) = if is_even x then evens l ++ [x] else evens l.
Proof.
  unfold evens. rewrite List.filter_app. cbn.
  destruct (is_even x); [reflexivity | apply app_nil_r].
Qed.

Lemma index_in_range (data : list Z) (k : nat) :
  Z.of_nat (length data) <= INT_MAX -> (k < length data)%nat ->
  to_size_t (Z.of_nat k) = Z.of_nat k /\
  to_size_t (Z.of_nat k) < size data /\
  int_add (Z.of_nat k) 1 = Z.of_nat (S k).
Proof.
  intros Hlen Hk. unfold INT_MAX in Hlen.
  rewrite size_small by (unfold SIZE_MAX; lia).
  rewrite to_size_t_small by (unfold SIZE_MAX; lia).
  repeat split; [lia |]. unfold int_add. rewrite wrap_int_small; int_arith.
Qed.

Lemma index_at_end (data : list Z) :
  size data <= to_size_t (Z.of_nat (length data)).
Proof. reflexivity. Qed.

(** After [k] passes the counter is [k] and [sum] holds the even elements
    among the first [k], added up in [int]. *)
Lemma structured_loop_prefix data :
  Z.of_nat (length data) <= INT_MAX ->
  forall (k fuel : nat),
    (k <= length data)%nat ->
    sum_evens_structured_loop (k + fuel) data 0 0 =
    sum_evens_structured_loop fuel data (Z.of_nat k)
      (wrap_int (Zsum (evens (take k data)))).
Proof.
  intros Hlen. induction k as [|k IH]; intros fuel Hk; [reflexivity |].
  replace (S k + fuel)%nat with (k + S fuel)%nat by lia.
  rewrite IH by lia.
  destruct (index_in_range data k Hlen) as (Hs & Hlt & Hnext); [lia |].
  destruct (subscript_in_bounds data _ Hlt) as (x & Hx & _).
  rewrite (structured_loop_pass _ _ _ _ x), Hnext by assumption.
  rewrite Hs, Nat2Z.id in Hx.
  rewrite (take_S_r _ _ _ Hx), evens_snoc.
  destruct (is_even x); [| reflexivity].
  f_equal. unfold int_add. rewrite wrap_int_idemp_l, Zsum_app.
  f_equal. unfold Zsum. cbn. lia.
Qed.

Lemma sum_evens_structured_sum_wraps data :
  Z.of_nat (length data) <= INT_MAX ->
  sum_evens_structured_sum data = Done (wrap_int (Zsum (evens data))).
Proof.
  intros Hlen. unfold sum_evens_structured_sum.
  replace (S (length data)) with (length data + 1)%nat by lia.
  rewrite structured_loop_prefix, firstn_all by (assumption || lia).
  apply structured_loop_exit, index_at_end.
Qed.

(** After [k] passes [evenNumbers] holds the even elements among the
    first [k], in their order. *)
Lemma filter_loop_prefix data :
  Z.of_nat (length data) <= INT_MAX ->
  forall (k fuel : nat),
    (k <= length data)%nat ->
    filter_loop (k + fuel) data 0 [] =
    filter_loop fuel data (Z.of_nat k) (evens (take k data)).
Proof.
  intros Hlen. induction k as [|k IH]; intros fuel Hk; [reflexivity |].
  replace (S k + fuel)%nat with (k + S fuel)%nat by lia.
  rewrite IH by lia.
  destruct (index_in_range data k Hlen) as (Hs & Hlt & Hnext); [lia |].
  destruct (subscript_in_bounds data _ Hlt) as (x & Hx & _).
  rewrite (filter_loop_pass _ _ _ _ x), Hnext by assumption.
  rewrite Hs, Nat2Z.id in Hx.
  now rewrite (take_S_r _ _ _ Hx), evens_snoc.
Qed.

Lemma filter_evens_is_evens data :
  Z.of_nat (length data) <= INT_MAX ->
  filter_evens data = Done (evens data).
Proof.
  intros Hlen. unfold filter_evens.
  replace (S (length data)) with (length data + 1)%nat by lia.
  rewrite filter_loop_prefix, firstn_all by (assumption || lia).
  apply filter_loop_exit, index_at_end.
Qed.

(** ** The sum loop and the filter loop run in step *)

Lemma loops_in_step fuel data :
  forall i acc,
    sum_evens_structured_loop fuel data i (wrap_int (Zsum acc)) =
    outcome_map (fun l => wrap_int (Zsum l)) (filter_loop fuel data i acc).
Proof.
  induction fuel as [|fuel IH]; intros i acc; [reflexivity |].
  destruct (Z.lt_ge_cases (to_size_t i) (size data)) as [Hlt | Hge].
  - destruct (subscript_in_bounds data i Hlt) as (x & Hx & _).
    rewrite (structured_loop_pass _ _ _ _ x), (filter_loop_pass _ _ _ _ x)
      by assumption.
    destruct (is_even x); [| apply IH].
    rewrite <- IH. f_equal. unfold int_add.
    rewrite wrap_int_idemp_l, Zsum_app. f_equal. unfold Zsum. cbn. lia.
  - now rewrite structured_loop_exit, filter_loop_exit by assumption.
Qed.

Lemma filter_evens_total data : exists l, filter_evens data = Done l.
Proof.
  destruct (sum_evens_structured_sum_total data) as [r Hr].
  unfold sum_evens_structured_sum in Hr.
  change 0 with (wrap_int (Zsum [])) in Hr at 2.
  rewrite loops_in_step in Hr. unfold filter_evens.
  destruct (filter_loop _ _ _ _) as [l| |]; [eauto | discriminate..].
Qed.

Lemma evens_idemp l : evens (evens l) = evens l.
Proof.
  unfold evens. induction l as [|x l IH]; [reflexivity |].
  cbn. destruct (is_even x) eqn:Hx; [| assumption].
  cbn. now rewrite Hx, IH.
Qed.

Lemma evens_length l : (length (evens l) <= length l)%nat.
Proof. apply List.filter_length_le. Qed.


(** ** Past the range of the [int] counter *)

(** In the embedding [i++] on [INT_MAX] gives [INT_MIN], as it does in a
    build that wraps signed arithmetic; C++ itself leaves that increment
    undefined. The lemmas of this section follow the filter loop up to that
    point: it visits the first [min size 2^31] elements and is then left. *)

Lemma index_below_wrap (data : list Z) (k : nat) :
  Z.of_nat (length data) <= SIZE_MAX ->
  (k < length data)%nat -> Z.of_nat k < 2147483648 ->
  to_size_t (wrap_int (Z.of_nat k)) = Z.of_nat k /\
  to_size_t (wrap_int (Z.of_nat k)) < size data /\
  int_add (wrap_int (Z.of_nat k)) 1 = wrap_int (Z.of_nat (S k)).
Proof.
  intros Hlen Hk Hint. rewrite size_small by assumption.
  rewrite int_add_wrap, Nat2Z.inj_succ.
  rewrite wrap_int_small by int_arith.
  rewrite to_size_t_small by (unfold SIZE_MAX in *; lia).
  repeat split; lia.
Qed.

Lemma index_past_wrap (data : list Z) :
  Z.of_nat (length data) <= SIZE_MAX - INT_MAX ->
  size data <=
  to_size_t (wrap_int (Z.of_nat (Z.to_nat (Z.min (size data) 2147483648)))).
Proof.
  intros Hlen. pose proof (size_le_length data) as [H0 _].
  rewrite Z2Nat.id by lia.
  destruct (Z.min_spec (size data) 2147483648) as [[? ->]|[? ->]].
  - rewrite wrap_int_small by int_arith.
    rewrite to_size_t_small by (unfold SIZE_MAX, INT_MAX in *; lia). lia.
  - rewrite size_small in * by (unfold SIZE_MAX, INT_MAX in *; lia).
    unfold SIZE_MAX, INT_MAX in Hlen. int_arith.
Qed.

Lemma filter_loop_prefix_wrap data :
  Z.of_nat (length data) <= SIZE_MAX ->
  forall (k fuel : nat),
    (k <= length data)%nat -> Z.of_nat k <= 2147483648 ->
    filter_loop (k + fuel) data 0 [] =
    filter_loop fuel data (wrap_int (Z.of_nat k)) (evens (take k data)).
Proof.
  intros Hlen. induction k as [|k IH]; intros fuel Hk Hint; [reflexivity |].
  replace (S k + fuel)%nat with (k + S fuel)%nat by lia.
  rewrite IH by lia.
  destruct (index_below_wrap data k Hlen) as (Hs & Hlt & Hnext); [lia.. |].
  destruct (subscript_in_bounds data _ Hlt) as (x & Hx & _).
  rewrite (filter_loop_pass _ _ _ _ x), Hnext by assumption.
  rewrite Hs, Nat2Z.id in Hx.
  now rewrite (take_S_r _ _ _ Hx), evens_snoc.
Qed.


Lemma filter_evens_prefix (data : list Z) :
  Z.of_nat (length data) <= SIZE_MAX - INT_MAX ->
  filter_evens data =
  Done (evens (take (Z.to_nat (Z.min (size data) 2147483648)) data)).
Proof.
  intros Hlen. pose proof (size_le_length data) as [H0 Hsize].
  unfold filter_evens.
  replace (S (length data))
    with (Z.to_nat (Z.min (size data) 2147483648)
          + S (length data - Z.to_nat (Z.min (size data) 2147483648)))%nat
    by lia.
  rewrite filter_loop_prefix_wrap by (unfold SIZE_MAX, INT_MAX in *; lia).
  apply filter_loop_exit, index_past_wrap, Hlen.
Qed.

(** A vector of at most 2^31 elements is visited to its end. *)
Lemma filter_evens_short (data : list Z) :
  Z.of_nat (length data) <= 2147483648 ->
  filter_evens data = Done (evens data).
Proof.
  intros Hlen.
  rewrite filter_evens_prefix by (unfold SIZE_MAX, INT_MAX; lia).
  rewrite size_small by (unfold SIZE_MAX; lia).
  now rewrite take_ge by lia.
Qed.


(** * The claims of the specification *)

(** C3: for every integer [x], in particular every representable one,
    [is_even x] is true if and only if the remainder of [x] by 2 is 0, the
    remainder being the one of the division that truncates towards zero; for
    a negative odd [x] that remainder is -1, not 0. So -2 is even and -3 is
    odd. Evenness so decided is the mathematical one ([x = 2 * k]). The
    function is total, and computing [x % 2] on an [int] stays inside [int]:
    there is no error case. *)
Theorem is_even_spec :
  (forall x, is_even x = true <-> Z.rem x 2 = 0) /\
  (forall x, is_even x = false <-> Z.rem x 2 = 1 \/ Z.rem x 2 = -1) /\
  (forall x, is_even x = true <-> exists k, x = 2 * k) /\
  (forall x, is_int x -> is_int (int_rem x 2)) /\
  is_even (-2) = true /\ is_even (-3) = false.
Proof.
  repeat split; try reflexivity.
  - unfold is_even. rewrite int_rem_2. apply Z.eqb_eq.
  - unfold is_even. rewrite int_rem_2. apply Z.eqb_eq.
  - unfold is_even. rewrite int_rem_2. intros H%Z.eqb_neq.
    Z.to_euclidean_division_equations; lia.
  - unfold is_even. rewrite int_rem_2. intros H. apply Z.eqb_neq. lia.
  - unfold is_even. rewrite int_rem_2. intros H%Z.eqb_eq.
    exists (Z.quot x 2). Z.to_euclidean_division_equations; lia.
  - unfold is_even. rewrite int_rem_2. intros [k ->]. apply Z.eqb_eq.
    Z.to_euclidean_division_equations; lia.
  - rewrite int_rem_2. unfold is_int, INT_MIN, INT_MAX in *.
    Z.to_euclidean_division_equations; lia.
  - rewrite int_rem_2. unfold is_int, INT_MIN, INT_MAX in *.
    Z.to_euclidean_division_equations; lia.
Qed.

(** The statement at the representable integer -3. *)
Lemma is_even_spec_witness :
  is_int (-3) /\ is_int (int_rem (-3) 2) /\ (is_even (-3) = true <-> Z.rem (-3) 2 = 0).
Proof.
  assert (is_int (-3)) as H by (unfold is_int, INT_MIN, INT_MAX; lia).
  split; [exact H |]. split.
  - exact (proj1 (proj2 (proj2 (proj2 is_even_spec))) (-3) H).
  - exact (proj1 is_even_spec (-3)).
Defined.

(** C1, as the specification states it, fails: on the two even numbers
    2147483646 and 2, whose sum 2147483648 is not an [int],
    [sum_evens_structured] leaves -2147483648 in [sum]. *)
Lemma sum_evens_structured_overflow :
  Forall is_int [2147483646; 2] /\
  sum_evens_structured_sum [2147483646; 2] = Done (-2147483648) /\
  Zsum (evens [2147483646; 2]) = 2147483648 /\
  sum_evens_structured_sum [2147483646; 2]
    <> Done (Zsum (evens [2147483646; 2])).
Proof.
  split; [repeat constructor; int_arith |].
  repeat split. vm_compute. discriminate.
Qed.

(** C1, amended: for every vector [data] whose size fits the [int] counter,
    [sum_evens_structured] leaves in [sum] the sum of exactly the even
    elements of [data], reduced modulo 2^32 into the range of [int]; this is
    the exact sum whenever that sum is an [int]. The elements are visited in
    order: after [k] passes the counter is [k] and [sum] covers the first [k]
    elements. For the empty vector the result is 0. The function has no
    effect but to deliver that value, which it does by appending the line
    ["Total: <value>"] to [cout]. *)
Theorem sum_evens_structured_spec (data : list Z) (cout : string) :
  Z.of_nat (length data) <= INT_MAX ->
  sum_evens_structured_sum data = Done (wrap_int (Zsum (evens data))) /\
  (is_int (Zsum (evens data)) ->
   sum_evens_structured_sum data = Done (Zsum (evens data))) /\
  (forall k fuel : nat,
     (k <= length data)%nat ->
     sum_evens_structured_loop (k + fuel) data 0 0 =
     sum_evens_structured_loop fuel data (Z.of_nat k)
       (wrap_int (Zsum (evens (take k data))))) /\
  sum_evens_structured_sum [] = Done 0 /\
  sum_evens_structured data cout =
    Done (cout ++ "Total: " ++ show_int (wrap_int (Zsum (evens data))) ++ endl)%string.
Proof.
  intros Hlen.
  pose proof (sum_evens_structured_sum_wraps data Hlen) as Hsum.
  repeat split.
  - exact Hsum.
  - intros Hfit. now rewrite Hsum, wrap_int_small.
  - apply structured_loop_prefix, Hlen.
  - unfold sum_evens_structured. now rewrite Hsum.
Qed.

(** The vector of [main] satisfies the hypothesis; its sum is 30. *)
Lemma sum_evens_structured_spec_witness :
  Z.of_nat (length [1; 2; 3; 4; 5; 6; 7; 8; 9; 10]) <= INT_MAX /\
  sum_evens_structured_sum [1; 2; 3; 4; 5; 6; 7; 8; 9; 10] = Done 30.
Proof.
  assert (Z.of_nat (length [1; 2; 3; 4; 5; 6; 7; 8; 9; 10]) <= INT_MAX) as H
    by (unfold INT_MAX; cbn; lia).
  split; [exact H |].
  exact (proj1 (sum_evens_structured_spec [1; 2; 3; 4; 5; 6; 7; 8; 9; 10] "" H)).
Defined.




(** C4: for every vector, the structured loop and the label-and-jump code
    stop with the same value of [sum] and write the same line to [cout]:
    [sum_evens_structured] and [sum_evens_non_structured] are the same
    function of the vector and the output written so far. *)
Theorem structured_non_structured_equivalent (data : list Z) (cout : string) :
  sum_evens_non_structured data cout = sum_evens_structured data cout /\
  exists sum,
    sum_evens_structured_sum data = Done sum /\
    sum_evens_non_structured_sum data = Done sum /\
    sum_evens_structured data cout =
      Done (cout ++ "Total: " ++ show_int sum ++ endl)%string.
Proof.
  pose proof (sum_evens_sums_agree data) as Hagree.
  split.
  - unfold sum_evens_non_structured, sum_evens_structured. now rewrite Hagree.
  - destruct (sum_evens_structured_sum_total data) as [sum Hsum].
    exists sum. repeat split; [assumption | congruence |].
    unfold sum_evens_structured. now rewrite Hsum.
Qed.

(** C5, as the specification states it, fails on the same vector as C1:
    the filter keeps both elements, whose sum is 2147483648, while
    [sum_evens_structured] stops with -2147483648. *)
Lemma sum_of_filter_overflow :
  filter_evens [2147483646; 2] = Done [2147483646; 2] /\
  ~ (exists l, filter_evens [2147483646; 2] = Done l /\
               sum_evens_structured_sum [2147483646; 2] = Done (Zsum l)).
Proof.
  split; [reflexivity |].
  intros (l & Hl & Hsum). vm_compute in Hl. injection Hl as <-.
  vm_compute in Hsum. discriminate.
Qed.

(** C5, amended: for every vector [data], the value [sum_evens_structured]
    (and [sum_evens_non_structured]) stops with is the sum of the elements
    of the vector the filter loop builds from [data], reduced modulo 2^32
    into the range of [int]; the two are equal whenever that sum is an
    [int]. *)
Theorem sum_evens_is_sum_of_filter (data : list Z) :
  exists l,
    filter_evens data = Done l /\
    sum_evens_structured_sum data = Done (wrap_int (Zsum l)) /\
    sum_evens_non_structured_sum data = Done (wrap_int (Zsum l)) /\
    (is_int (Zsum l) -> sum_evens_structured_sum data = Done (Zsum l)).
Proof.
  destruct (filter_evens_total data) as [l Hl]. exists l.
  assert (sum_evens_structured_sum data = Done (wrap_int (Zsum l))) as Hsum.
  { unfold sum_evens_structured_sum. change 0 with (wrap_int (Zsum [])) at 2.
    rewrite loops_in_step. unfold filter_evens in Hl. now rewrite Hl. }
  repeat split; try assumption.
  - now rewrite sum_evens_sums_agree.
  - intros Hfit. now rewrite Hsum, wrap_int_small.
Qed.

(** On -4, -3, -2, -1, 0 the sum of the filtered vector is an [int], and
    the two sides are equal without reduction. *)
Lemma sum_evens_is_sum_of_filter_witness :
  exists l,
    filter_evens [-4; -3; -2; -1; 0] = Done l /\
    sum_evens_structured_sum [-4; -3; -2; -1; 0] = Done (Zsum l).
Proof.
  destruct (sum_evens_is_sum_of_filter [-4; -3; -2; -1; 0])
    as (l & Hl & Hwrap & _ & Hexact).
  exists l. split; [exact Hl |]. apply Hexact.
  vm_compute in Hl. injection Hl as <-.
  unfold is_int, INT_MIN, INT_MAX. cbn. lia.
Defined.

(** C6: for every vector [data], running the filter loop on its own result
    gives that result again. The vector is any that a [vector<int>] can be:
    the bound [SIZE_MAX - INT_MAX] on its size, about 2^64 elements of four
    bytes each, is beyond what a 64-bit address space holds, and it puts no
    limit on the counter [i], which may pass [INT_MAX]; the result is the
    same whether the counter then wraps or keeps counting. *)
Theorem filter_evens_idempotent (data : list Z) :
  Z.of_nat (length data) <= SIZE_MAX - INT_MAX ->
  exists l, filter_evens data = Done l /\ filter_evens l = Done l.
Proof.
  intros Hlen. pose proof (size_le_length data) as [H0 Hsize].
  exists (evens (take (Z.to_nat (Z.min (size data) 2147483648)) data)).
  split; [apply filter_evens_prefix, Hlen |].
  rewrite filter_evens_short, evens_idemp; [reflexivity |].
  pose proof (evens_length (take (Z.to_nat (Z.min (size data) 2147483648)) data))
    as Hle.
  rewrite length_take in Hle. lia.
Qed.

(** The bound holds of a five-element vector. *)
Lemma filter_evens_idempotent_witness :
  Z.of_nat (length [5; 4; 3; 2; 1]) <= SIZE_MAX - INT_MAX /\
  exists l, filter_evens [5; 4; 3; 2; 1] = Done l /\ filter_evens l = Done l.
Proof.
  assert (Z.of_nat (length [5; 4; 3; 2; 1]) <= SIZE_MAX - INT_MAX) as H
    by (unfold SIZE_MAX, INT_MAX; cbn; lia).
  split; [exact H |].
  exact (filter_evens_idempotent [5; 4; 3; 2; 1] H).
Defined.

(** C7: on the vector 1, 2, ..., 10 of [main], both versions of the sum
    stop with 30 and write ["Total: 30"], and the filter loop builds
    [2; 4; 6; 8; 10], which [main] prints before it returns 0. *)
Theorem scenario_one_to_ten :
  sum_evens_structured_sum [1; 2; 3; 4; 5; 6; 7; 8; 9; 10] = Done 30 /\
  sum_evens_non_structured_sum [1; 2; 3; 4; 5; 6; 7; 8; 9; 10] = Done 30 /\
  sum_evens_structured [1; 2; 3; 4; 5; 6; 7; 8; 9; 10] "" =
    Done ("Total: 30" ++ endl)%string /\
  filter_evens [1; 2; 3; 4; 5; 6; 7; 8; 9; 10] = Done [2; 4; 6; 8; 10] /\
  main "" = Done (0, "Even numbers: 2 4 6 8 10 "%string).
Proof. repeat split. Qed.

(** C8: on the vector -4, -3, -2, -1, 0 the filter loop builds
    [-4; -2; 0] and both versions of the sum stop with -6. *)
Theorem scenario_negative_numbers :
  filter_evens [-4; -3; -2; -1; 0] = Done [-4; -2; 0] /\
  sum_evens_structured_sum [-4; -3; -2; -1; 0] = Done (-6) /\
  sum_evens_non_structured_sum [-4; -3; -2; -1; 0] = Done (-6) /\
  sum_evens_structured [-4; -3; -2; -1; 0] "" =
    Done ("Total: -6" ++ endl)%string.
Proof. repeat split. Qed.

(** C9: in the structured loop, in the label-and-jump code and in the
    filter loop of [main], whatever the vector, the values of the variables
    at the loop test and the number of steps allowed, no subscript is
    evaluated outside the vector: a subscript [i] that passed the loop test
    denotes an element of the vector, and when the size of the vector fits
    an [int] it satisfies [0 <= i < size]. *)
Theorem subscripts_in_bounds (data : list Z) (fuel : nat) :
  (forall i sum, sum_evens_structured_loop fuel data i sum <> OutOfBounds) /\
  (forall i sum, run fuel data (Frame loop_start i sum) <> OutOfBounds) /\
  (forall i acc, filter_loop fuel data i acc <> OutOfBounds) /\
  (forall i, to_size_t i < size data ->
     exists x, data !! Z.to_nat (to_size_t i) = Some x /\
               subscript data i = Done x) /\
  (forall i, is_int i -> Z.of_nat (length data) <= INT_MAX ->
     to_size_t i < size data -> 0 <= i < Z.of_nat (length data)).
Proof.
  split; [apply structured_loop_in_bounds |].
  split; [intros i sum; apply run_in_bounds; exact I |].
  split; [apply filter_loop_in_bounds |].
  split; [apply subscript_in_bounds |].
  intros i Hi Hlen. rewrite size_small by (unfold INT_MAX, SIZE_MAX in *; lia).
  int_arith.
Qed.

(** Subscript 3 of a five-element vector. *)
Lemma subscripts_in_bounds_witness :
  is_int 3 /\ Z.of_nat (length [5; 4; 3; 2; 1]) <= INT_MAX /\
  to_size_t 3 < size [5; 4; 3; 2; 1] /\
  0 <= 3 < Z.of_nat (length [5; 4; 3; 2; 1]) /\
  subscript [5; 4; 3; 2; 1] 3 = Done 2.
Proof.
  assert (is_int 3) as Hi by (unfold is_int, INT_MIN, INT_MAX; lia).
  assert (Z.of_nat (length [5; 4; 3; 2; 1]) <= INT_MAX) as Hlen
    by (unfold INT_MAX; cbn; lia).
  assert (to_size_t 3 < size [5; 4; 3; 2; 1]) as Hlt by reflexivity.
  repeat (split; [assumption |]).
  split; [| reflexivity].
  exact (proj2 (proj2 (proj2 (proj2
    (subscripts_in_bounds [5; 4; 3; 2; 1] 0)))) 3 Hi Hlen Hlt).
Defined.

(** C10: the label-and-jump code terminates on every vector: started at
    [loop_start] with [i = 0] and [sum = 0], control reaches [loop_end]
    within [4 * size + 1] statements. Every pass that the test at
    [loop_start] lets through, through the even branch as through the odd
    one, reaches [next_iteration] and is back at [loop_start] after at most
    four statements with [i] incremented, which is [i + 1] as long as [i]
    is below [INT_MAX]; the distance from [i] to the size, as the test at
    [loop_start] compares them, then decreases. *)
Theorem non_structured_terminates (data : list Z) :
  (exists sum, forall fuel,
     (4 * length data + 1 <= fuel)%nat -> run fuel data entry = Done sum) /\
  (forall i sum,
     to_size_t i < size data ->
     exists n sum',
       (n <= 4)%nat /\
       steps n data (Frame loop_start i sum) =
         Done (Frame loop_start (int_add i 1) sum')) /\
  (forall i, 0 <= i < INT_MAX ->
     int_add i 1 = i + 1 /\
     size data - to_size_t (int_add i 1) < size data - to_size_t i).
Proof.
  split; [| split].
  - destruct (sum_evens_structured_sum_total data) as [sum Hsum].
    exists sum. intros fuel Hfuel.
    apply (run_simulates _ _ _ _ _ Hsum). lia.
  - intros i sum Hlt.
    destruct (subscript_in_bounds data i Hlt) as (x & Hx & _).
    destruct (is_even x) eqn:Hpar.
    + exists 4%nat, (int_add sum x). split; [lia |]. now apply pass_even.
    + exists 3%nat, sum. split; [lia |]. now apply (pass_odd _ _ _ x).
  - intros i Hi. split; int_arith.
Qed.

(** Ten elements: 41 statements are enough. *)
Lemma non_structured_terminates_witness :
  exists sum, run 41 [1; 2; 3; 4; 5; 6; 7; 8; 9; 10] entry = Done sum.
Proof.
  destruct (proj1 (non_structured_terminates [1; 2; 3; 4; 5; 6; 7; 8; 9; 10]))
    as [sum Hsum].
  exists sum. apply Hsum. cbn. lia.
Defined.

(** * Further properties of the code *)

(** ** Parity and range of the total *)

Lemma is_even_iff_mod x : is_even x = true <-> x mod 2 = 0.
Proof.
  unfold is_even. rewrite int_rem_2, Z.eqb_eq. apply Z.rem_mod_eq_0. lia.
Qed.

Lemma is_even_wrap_int z : is_even (wrap_int z) = is_even z.
Proof.
  apply eq_true_iff_eq. rewrite !is_even_iff_mod.
  unfold wrap_int. Z.div_mod_to_equations. lia.
Qed.

Lemma is_even_add a b : is_even (a + b) = Bool.eqb (is_even a) (is_even b).
Proof.
  destruct (is_even a) eqn:Ha, (is_even b) eqn:Hb; cbn;
    [apply is_even_iff_mod | apply not_true_is_false; rewrite is_even_iff_mod ..
    | apply is_even_iff_mod ];
    try apply is_even_iff_mod in Ha; try apply is_even_iff_mod in Hb;
    try (apply not_true_iff_false in Ha; rewrite is_even_iff_mod in Ha);
    try (apply not_true_iff_false in Hb; rewrite is_even_iff_mod in Hb);
    Z.div_mod_to_equations; lia.
Qed.

Lemma is_even_wrap_add a b :
  is_even (wrap_int (a + b)) = Bool.eqb (is_even a) (is_even b).
Proof. now rewrite is_even_wrap_int, is_even_add. Qed.

(** [sum] is an even [int] at every test of the structured loop. *)
Lemma structured_loop_even_int fuel data :
  forall i sum r,
    is_int sum -> is_even sum = true ->
    sum_evens_structured_loop fuel data i sum = Done r ->
    is_int r /\ is_even r = true.
Proof.
  induction fuel as [|fuel IH]; intros i sum r Hint Heven Hr; [discriminate |].
  destruct (Z.lt_ge_cases (to_size_t i) (size data)) as [Hlt | Hge].
  - destruct (subscript_in_bounds data i Hlt) as (x & Hx & _).
    rewrite (structured_loop_pass _ _ _ _ x) in Hr by assumption.
    destruct (is_even x) eqn:Hpar; [| now apply (IH _ _ _ Hint Heven Hr)].
    assert (is_even (int_add sum x) = true) as Hsum
      by (unfold int_add; now rewrite is_even_wrap_add, Heven, Hpar).
    exact (IH _ _ _ (wrap_int_is_int _) Hsum Hr).
  - rewrite structured_loop_exit in Hr by assumption.
    now injection Hr as <-.
Qed.

(** X1: [is_even] of an [int] sum, wrapped or not, is decided by the two
    addends: the sum is even exactly when both are even or both are odd. *)
Theorem is_even_int_add (a b : Z) :
  is_even (int_add a b) = Bool.eqb (is_even a) (is_even b) /\
  is_even (wrap_int a) = is_even a.
Proof. split; [apply is_even_wrap_add | apply is_even_wrap_int]. Qed.

(** X2: on every vector, of any size, both versions of the sum stop with the
    same value, and that value is an [int] and is even: only even elements
    are ever added to [sum], and wrap-around does not change parity. *)
Theorem total_is_even_int (data : list Z) :
  exists s,
    sum_evens_structured_sum data = Done s /\
    sum_evens_non_structured_sum data = Done s /\
    is_int s /\ is_even s = true.
Proof.
  destruct (sum_evens_structured_sum_total data) as [s Hs].
  exists s. split; [assumption |]. split; [now rewrite sum_evens_sums_agree |].
  apply (structured_loop_even_int (S (length data)) data 0 0 s);
    [int_arith | reflexivity | exact Hs].
Qed.



(** Membership and size of what the filter loop has built. *)
Lemma filter_loop_sound fuel data :
  forall i acc l,
    Forall (fun x => is_even x = true /\ In x data) acc ->
    filter_loop fuel data i acc = Done l ->
    Forall (fun x => is_even x = true /\ In x data) l /\
    (length l < length acc + fuel)%nat.
Proof.
  induction fuel as [|fuel IH]; intros i acc l Hacc Hl; [discriminate |].
  destruct (Z.lt_ge_cases (to_size_t i) (size data)) as [Hlt | Hge].
  - destruct (subscript_in_bounds data i Hlt) as (x & Hx & _).
    rewrite (filter_loop_pass _ _ _ _ x) in Hl by assumption.
    destruct (is_even x) eqn:Hpar.
    + apply IH in Hl.
      * rewrite length_app in Hl. cbn in Hl. split; [apply Hl | lia].
      * apply Forall_app. split; [assumption |].
        constructor; [| constructor]. split; [assumption |].
        apply list_elem_of_In, list_elem_of_lookup. eauto.
    + apply IH in Hl; [| assumption]. split; [apply Hl | lia].
  - rewrite filter_loop_exit in Hl by assumption.
    injection Hl as <-. split; [assumption | lia].
Qed.

(** X3: on every vector, of any size, the filter loop of [main] ends, and
    every element of the vector it builds is even and is an element of the
    input; it never builds a vector longer than its input. *)
Theorem filter_evens_sound (numbers : list Z) :
  exists l,
    filter_evens numbers = Done l /\
    Forall (fun x => is_even x = true /\ In x numbers) l /\
    (length l <= length numbers)%nat.
Proof.
  destruct (filter_evens_total numbers) as [l Hl]. exists l.
  split; [assumption |].
  assert (Forall (fun x => is_even x = true /\ In x numbers) []) as Hnil
    by constructor.
  destruct (filter_loop_sound _ _ _ _ _ Hnil Hl) as [Hall Hlen].
  split; [assumption | cbn in Hlen; lia].
Qed.

(** ** How the loops compose *)

Lemma wrap_int_idemp_r a b : wrap_int (a + wrap_int b) = wrap_int (a + b).
Proof. rewrite (Z.add_comm a), wrap_int_idemp_l. f_equal. lia. Qed.

Lemma evens_app l1 l2 : evens (l1 ++ l2) = evens l1 ++ evens l2.
Proof. apply List.filter_app. Qed.

(** X4: for two vectors whose concatenation fits the [int] counter, the
    filter loop on the concatenation gives the concatenation of its results
    on the parts, and the sum loop gives the [int] sum of its results on
    the parts. *)
Theorem loops_split (a b : list Z) :
  Z.of_nat (length (a ++ b)) <= INT_MAX ->
  exists la lb sa sb,
    filter_evens a = Done la /\ filter_evens b = Done lb /\
    filter_evens (a ++ b) = Done (la ++ lb) /\
    sum_evens_structured_sum a = Done sa /\
    sum_evens_structured_sum b = Done sb /\
    sum_evens_structured_sum (a ++ b) = Done (int_add sa sb).
Proof.
  intros Hlen. pose proof Hlen as Hab. rewrite length_app in Hab.
  exists (evens a), (evens b),
    (wrap_int (Zsum (evens a))), (wrap_int (Zsum (evens b))).
  rewrite !filter_evens_is_evens, !sum_evens_structured_sum_wraps
    by (assumption || lia).
  rewrite evens_app, Zsum_app. unfold int_add.
  now rewrite wrap_int_idemp_l, wrap_int_idemp_r.
Qed.

Lemma loops_split_witness :
  Z.of_nat (length ([1; 2; 3] ++ [4; 5; 6])) <= INT_MAX /\
  exists la lb sa sb,
    filter_evens [1; 2; 3] = Done la /\ filter_evens [4; 5; 6] = Done lb /\
    filter_evens ([1; 2; 3] ++ [4; 5; 6]) = Done (la ++ lb) /\
    sum_evens_structured_sum [1; 2; 3] = Done sa /\
    sum_evens_structured_sum [4; 5; 6] = Done sb /\
    sum_evens_structured_sum ([1; 2; 3] ++ [4; 5; 6]) = Done (int_add sa sb).
Proof.
  assert (Z.of_nat (length ([1; 2; 3] ++ [4; 5; 6])) <= INT_MAX) as H
    by (unfold INT_MAX; cbn; lia).
  split; [exact H |]. exact (loops_split [1; 2; 3] [4; 5; 6] H).
Defined.

Lemma Zsum_Permutation l1 l2 : Permutation l1 l2 -> Zsum l1 = Zsum l2.
Proof.
  unfold Zsum. induction 1 as [|x l l' _ IH|x y l|l l' l'' _ IH1 _ IH2]; cbn;
    [reflexivity | now rewrite IH | lia | congruence].
Qed.

Lemma evens_Permutation l1 l2 :
  Permutation l1 l2 -> Permutation (evens l1) (evens l2).
Proof.
  unfold evens. induction 1 as [|x l l' _ IH|x y l|l l' l'' _ IH1 _ IH2]; cbn.
  - constructor.
  - destruct (is_even x); [now constructor | assumption].
  - destruct (is_even x), (is_even y); try reflexivity. constructor.
  - now transitivity (List.filter is_even l').
Qed.

(** X5: reordering the elements of a vector whose size fits the [int]
    counter does not change the value the sum loop stops with, even when
    the additions wrap around, and reorders the result of the filter loop. *)
Theorem loops_order_independent (a b : list Z) :
  Permutation a b ->
  Z.of_nat (length a) <= INT_MAX ->
  sum_evens_structured_sum a = sum_evens_structured_sum b /\
  exists la lb,
    filter_evens a = Done la /\ filter_evens b = Done lb /\ Permutation la lb.
Proof.
  intros Hperm Hlen.
  assert (Z.of_nat (length b) <= INT_MAX) as Hlenb
    by now rewrite <- (Permutation_length Hperm).
  split.
  - rewrite !sum_evens_structured_sum_wraps by assumption.
    now rewrite (Zsum_Permutation _ _ (evens_Permutation _ _ Hperm)).
  - exists (evens a), (evens b).
    rewrite !filter_evens_is_evens by assumption.
    repeat split. now apply evens_Permutation.
Qed.

Lemma loops_order_independent_witness :
  Permutation [2147483646; 3; 2] [2; 2147483646; 3] /\
  Z.of_nat (length [2147483646; 3; 2]) <= INT_MAX /\
  sum_evens_structured_sum [2147483646; 3; 2] =
  sum_evens_structured_sum [2; 2147483646; 3].
Proof.
  assert (Permutation [2147483646; 3; 2] [2; 2147483646; 3]) as Hp.
  { symmetry. apply (Permutation_cons_app [2147483646; 3] [] 2).
    apply Permutation_refl. }
  assert (Z.of_nat (length [2147483646; 3; 2]) <= INT_MAX) as H
    by (unfold INT_MAX; cbn; lia).
  split; [exact Hp |]. split; [exact H |].
  exact (proj1 (loops_order_independent _ _ Hp H)).
Defined.

(** X6: for a vector whose size fits the [int] counter, summing the result
    of the filter loop gives what summing the vector itself gives, in the
    structured and in the label-and-jump version: the odd elements never
    contribute. *)
Theorem sum_after_filter (data : list Z) :
  Z.of_nat (length data) <= INT_MAX ->
  exists l,
    filter_evens data = Done l /\
    sum_evens_structured_sum l = sum_evens_structured_sum data /\
    sum_evens_non_structured_sum l = sum_evens_non_structured_sum data.
Proof.
  intros Hlen. exists (evens data).
  assert (Z.of_nat (length (evens data)) <= INT_MAX) as Hl
    by (pose proof (evens_length data); lia).
  split; [now apply filter_evens_is_evens |].
  rewrite !sum_evens_sums_agree.
  rewrite !sum_evens_structured_sum_wraps, evens_idemp by assumption.
  split; reflexivity.
Qed.

Lemma sum_after_filter_witness :
  Z.of_nat (length [5; 4; 3; 2; 1]) <= INT_MAX /\
  exists l,
    filter_evens [5; 4; 3; 2; 1] = Done l /\
    sum_evens_structured_sum l = sum_evens_structured_sum [5; 4; 3; 2; 1].
Proof.
  assert (Z.of_nat (length [5; 4; 3; 2; 1]) <= INT_MAX) as H
    by (unfold INT_MAX; cbn; lia).
  split; [exact H |].
  destruct (sum_after_filter [5; 4; 3; 2; 1] H) as (l & Hl & Hs & _).
  exists l. split; [exact Hl | exact Hs].
Defined.

Lemma evens_all l : evens l = l <-> Forall (fun x => is_even x = true) l.
Proof.
  unfold evens. split.
  - intros Hl. apply List.Forall_forall. intros x Hx.
    rewrite <- Hl in Hx. now apply List.filter_In in Hx.
  - induction 1 as [|x l Hx _ IH]; [reflexivity |].
    cbn. now rewrite Hx, IH.
Qed.

Lemma evens_none l : evens l = [] <-> Forall (fun x => is_even x = false) l.
Proof.
  unfold evens. split.
  - induction l as [|x l IH]; [constructor |].
    cbn. destruct (is_even x) eqn:Hx; [discriminate |].
    intros Hl. constructor; [assumption | now apply IH].
  - induction 1 as [|x l Hx _ IH]; [reflexivity |].
    cbn. now rewrite Hx.
Qed.

(** X7: for a vector whose size fits the [int] counter, the filter loop
    returns its input unchanged exactly when every element is even, and the
    empty vector exactly when every element is odd; in the latter case
    [sum_evens_structured] writes ["Total: 0"]. *)
Theorem filter_extremes (data : list Z) (cout : string) :
  Z.of_nat (length data) <= INT_MAX ->
  (filter_evens data = Done data <-> Forall (fun x => is_even x = true) data) /\
  (filter_evens data = Done [] <-> Forall (fun x => is_even x = false) data) /\
  (Forall (fun x => is_even x = false) data ->
   sum_evens_structured data cout = Done (cout ++ "Total: 0" ++ endl)%string).
Proof.
  intros Hlen. rewrite (filter_evens_is_evens _ Hlen).
  split; [| split].
  - rewrite <- evens_all. split; [now intros [= ->] | now intros ->].
  - rewrite <- evens_none. split; [now intros [= ->] | now intros ->].
  - intros Hodd%evens_none. unfold sum_evens_structured.
    now rewrite (sum_evens_structured_sum_wraps _ Hlen), Hodd.
Qed.

Lemma filter_extremes_witness :
  Z.of_nat (length [1; 3; 5]) <= INT_MAX /\
  Forall (fun x => is_even x = false) [1; 3; 5] /\
  sum_evens_structured [1; 3; 5] "" = Done ("Total: 0" ++ endl)%string.
Proof.
  assert (Z.of_nat (length [1; 3; 5]) <= INT_MAX) as H
    by (unfold INT_MAX; cbn; lia).
  assert (Forall (fun x => is_even x = false) [1; 3; 5]) as Hodd
    by (repeat constructor).
  split; [exact H |]. split; [exact Hodd |].
  exact (proj2 (proj2 (filter_extremes [1; 3; 5] "" H)) Hodd).
Defined.

(** ** The output loop of [main] *)

Lemma string_app_assoc (s1 s2 s3 : string) :
  ((s1 ++ s2) ++ s3 = s1 ++ (s2 ++ s3))%string.
Proof. induction s1 as [|c s1 IH]; cbn; [reflexivity | now rewrite IH]. Qed.

Lemma print_all_prefix l :
  forall cout, print_all l cout = (cout ++ print_all l "")%string.
Proof.
  unfold print_all. induction l as [|n l IH]; intros cout; cbn.
  - induction cout as [|c cout IHc]; cbn; [reflexivity | now rewrite <- IHc].
  - rewrite IH, (IH (show_int n ++ " ")%string). now rewrite !string_app_assoc.
Qed.

Lemma print_all_text l :
  print_all l "" =
  fold_right (fun n rest => show_int n ++ " " ++ rest)%string ""%string l.
Proof.
  induction l as [|n l IH]; [reflexivity |].
  cbn [fold_right]. rewrite <- IH. unfold print_all. cbn [fold_left].
  fold (print_all l ("" ++ show_int n ++ " ")%string).
  rewrite print_all_prefix. cbn. now rewrite string_app_assoc.
Qed.

(** X8: the output loop of [main] leaves what was written before in place
    and appends, in order, the decimal rendering of each element followed
    by one space, also after the last element; for the empty vector it
    writes nothing. *)
Theorem print_all_appends (evenNumbers : list Z) (cout : string) :
  print_all evenNumbers cout =
    (cout ++ fold_right (fun n rest => show_int n ++ " " ++ rest) ""
               evenNumbers)%string /\
  print_all [] cout = cout /\
  (forall n, print_all (evenNumbers ++ [n]) cout =
             (print_all evenNumbers cout ++ show_int n ++ " ")%string).
Proof.
  split; [now rewrite print_all_prefix, print_all_text |].
  split; [reflexivity |].
  intros n. unfold print_all. now rewrite fold_left_app.
Qed.

(** ** The two sum loops from any state at the loop test *)

Lemma run_out_of_fuel data s : pc s <> loop_end -> run 0 data s = OutOfFuel.
Proof. destruct s as [[] i sum]; intros Hpc; try reflexivity. now destruct Hpc. Qed.

(** A pass that the statement budget cuts short does not reach [loop_end]. *)
Lemma run_pass_cut m data i sum r :
  to_size_t i < size data -> (m < 3)%nat ->
  run m data (Frame loop_start i sum) = Done r -> False.
Proof.
  intros Hlt Hm.
  destruct (subscript_in_bounds data i Hlt) as (x & Hx & _).
  assert ((size data <=? to_size_t i) = false) as Hguard by (apply Z.leb_gt; lia).
  destruct m as [|[|[|m]]]; [discriminate | | | lia].
  - rewrite run_S, step_loop_start, Hguard by discriminate. discriminate.
  - rewrite run_S, step_loop_start, Hguard by discriminate.
    cbn [mbind outcome_mbind outcome_bind].
    rewrite run_S by discriminate. erewrite step_odd_test by eassumption.
    cbn [mbind outcome_mbind outcome_bind].
    rewrite run_out_of_fuel; [discriminate |]. destruct (is_even x); discriminate.
Qed.

Lemma run_pass_even_cut data i sum x r :
  to_size_t i < size data ->
  data !! Z.to_nat (to_size_t i) = Some x -> is_even x = true ->
  run 3 data (Frame loop_start i sum) = Done r -> False.
Proof.
  intros Hlt Hx Heven.
  assert ((size data <=? to_size_t i) = false) as Hguard by (apply Z.leb_gt; lia).
  rewrite run_S, step_loop_start, Hguard by discriminate.
  cbn [mbind outcome_mbind outcome_bind].
  rewrite run_S by discriminate. erewrite step_odd_test by eassumption.
  rewrite Heven. cbn [mbind outcome_mbind outcome_bind].
  rewrite run_S by discriminate. erewrite step_accumulate by eassumption.
  discriminate.
Qed.

Lemma run_reflects m data :
  forall i sum r,
    run m data (Frame loop_start i sum) = Done r ->
    exists n, (n <= m)%nat /\ sum_evens_structured_loop n data i sum = Done r.
Proof.
  induction m as [m IH] using lt_wf_ind. intros i sum r Hr.
  destruct (Z.lt_ge_cases (to_size_t i) (size data)) as [Hlt | Hge].
  - destruct (subscript_in_bounds data i Hlt) as (x & Hx & _).
    destruct (Nat.lt_ge_cases m 3) as [Hm | Hm];
      [now destruct (run_pass_cut _ _ _ _ _ Hlt Hm Hr) |].
    destruct (is_even x) eqn:Hpar.
    + destruct (Nat.eq_dec m 3%nat) as [-> | Hm3];
        [now destruct (run_pass_even_cut _ _ _ _ _ Hlt Hx Hpar Hr) |].
      replace m with (4 + (m - 4))%nat in Hr by lia.
      rewrite (run_pass_even _ _ _ _ x) in Hr by assumption.
      apply IH in Hr as (n & Hn & Hloop); [| lia].
      exists (S n). split; [lia |].
      now rewrite (structured_loop_pass _ _ _ _ x), Hpar by assumption.
    + replace m with (3 + (m - 3))%nat in Hr by lia.
      rewrite (run_pass_odd _ _ _ _ x) in Hr by assumption.
      apply IH in Hr as (n & Hn & Hloop); [| lia].
      exists (S n). split; [lia |].
      now rewrite (structured_loop_pass _ _ _ _ x), Hpar by assumption.
  - destruct m as [|m]; [discriminate |].
    rewrite run_exit in Hr by assumption.
    exists 1%nat. split; [lia |]. now rewrite structured_loop_exit.
Qed.

(** X10: started at the loop test with any values of [i] and [sum], the
    structured loop ends with a value [r] if and only if the label-and-jump
    code ends with [r]. *)
Theorem loops_agree_from_any_state (data : list Z) (i sum r : Z) :
  (exists n, sum_evens_structured_loop n data i sum = Done r) <->
  (exists m, run m data (Frame loop_start i sum) = Done r).
Proof.
  split.
  - intros [n Hn]. exists (4 * n)%nat.
    apply (run_simulates _ _ _ _ _ Hn). lia.
  - intros [m Hm]. destruct (run_reflects _ _ _ _ _ Hm) as (n & _ & Hn). eauto.
Qed.

(** ** What is written identifies the total *)

Lemma string_length_app (s1 s2 : string) :
  String.length (s1 ++ s2) = (String.length s1 + String.length s2)%nat.
Proof. induction s1 as [|c s1 IH]; cbn; [reflexivity | now rewrite IH]. Qed.

Lemma string_app_inv_l (s t1 t2 : string) :
  (s ++ t1 = s ++ t2)%string -> t1 = t2.
Proof. induction s as [|c s IH]; cbn; [trivial | intros [= H]; auto]. Qed.

Lemma string_app_inv_r (t : string) :
  forall s1 s2 : string, (s1 ++ t = s2 ++ t)%string -> s1 = s2.
Proof.
  induction s1 as [|c s1 IH]; intros [|c' s2] H; cbn in H.
  - reflexivity.
  - apply (f_equal String.length) in H. cbn in H.
    rewrite string_length_app in H. lia.
  - apply (f_equal String.length) in H. cbn in H.
    rewrite string_length_app in H. lia.
  - injection H as -> H. f_equal. now apply IH.
Qed.

(** Reading the digits written for [n] gives [n] back. *)
Lemma show_int_read (n : Z) :
  option_map Z.of_int (NilZero.int_of_string (show_int n)) = Some n.
Proof.
  unfold show_int. rewrite NilZero.isi.
  - cbn. now rewrite DecimalZ.of_to.
  - destruct n; cbn; try discriminate.
    intros [= H]. now apply Unsigned.to_uint_nonnil in H.
  - destruct n; cbn; try discriminate.
    intros [= H]. now apply Unsigned.to_uint_nonnil in H.
Qed.

Lemma show_int_inj (a b : Z) : show_int a = show_int b -> a = b.
Proof.
  intros H. pose proof (show_int_read a) as Ha.
  rewrite H, show_int_read in Ha. now injection Ha.
Qed.

(** X11: the line [sum_evens_structured] writes identifies the total: for
    two vectors the outputs are equal if and only if the values of [sum]
    are. *)
Theorem printed_line_identifies_total (a b : list Z) (cout : string) :
  sum_evens_structured a cout = sum_evens_structured b cout <->
  sum_evens_structured_sum a = sum_evens_structured_sum b.
Proof.
  unfold sum_evens_structured. split; [| now intros ->].
  destruct (sum_evens_structured_sum_total a) as [sa ->].
  destruct (sum_evens_structured_sum_total b) as [sb ->].
  cbn. intros [= H]. f_equal.
  apply string_app_inv_l, (string_app_inv_l "Total: ") in H.
  now apply string_app_inv_r, show_int_inj in H.
Qed.
